(** * customdevice: a mock character device that one caller may open at a time

    A shallow embedding of [customdevice.c].  The driver keeps one global
    [custom_dev] object and talks to the kernel through a handful of calls
    (mutex, cdev, class, device and chrdev-region services, and [printk]).
    Here every driver function is a computation over the global object that
    also yields the ordered list of kernel calls it made. *)

From Stdlib Require Import ZArith List String Bool Lia.
Import ListNotations.
Local Open Scope Z_scope.

(** ** Machine integers and pointers *)

(** [unsigned int] is 32 bits wide: a value stored into one wraps. *)
Definition to_uint (z : Z) : Z := z mod 2 ^ 32.

(** [a < b] where [a] is an [unsigned int] and [b] an [int]: the usual
    arithmetic conversions turn [b] into an [unsigned int] first. *)
Definition uint_lt (a b : Z) : bool := to_uint a <? to_uint b.

(** [a != b] on two [unsigned int]s. *)
Definition uint_ne (a b : Z) : bool := negb (a =? b).

Definition ptr := Z.
Definition NULL : ptr := 0.
Definition ptr_ne (a b : ptr) : bool := negb (a =? b).

(** [-EINTR], what [mutex_lock_interruptible] returns when a signal ends the wait. *)
Definition EINTR : Z := 4.

(** ** Kernel objects the driver reads *)

(** What the driver reads of a [struct inode]: the results of [imajor] and
    [iminor] on it, and its [i_cdev] field. *)
Record inode := mk_inode { imajor : Z; iminor : Z; i_cdev : ptr }.

(** What the driver reads of [current]. *)
Record task := mk_task { comm : string; pid : Z }.

(** [struct mutex]: held or free. *)
Record mutex := mk_mutex { mutex_is_locked : bool }.

(** [struct cdev]: whether [cdev_init] bound it to [fops], and whether its
    [owner] field was set. *)
Record cdev_t := mk_cdev { cdev_ops : bool; cdev_owner : bool }.

(** ** The driver's global object *)

Record custom_dev_t := mk_custom_dev {
  lock : mutex;
  cdev : cdev_t;
  class_ptr : ptr;
  device_ptr : ptr;
  dev : Z;
  major : Z
}.

(** The static initialiser: the named fields are zero and the rest of the
    object is zero-filled. *)
Definition custom_dev0 : custom_dev_t :=
  {| lock := mk_mutex false;
     cdev := mk_cdev false false;
     class_ptr := NULL;
     device_ptr := NULL;
     dev := 0;
     major := 0 |}.

Definition set_lock (m : mutex) (s : custom_dev_t) : custom_dev_t :=
  {| lock := m; cdev := cdev s; class_ptr := class_ptr s;
     device_ptr := device_ptr s; dev := dev s; major := major s |}.
Definition set_cdev (c : cdev_t) (s : custom_dev_t) : custom_dev_t :=
  {| lock := lock s; cdev := c; class_ptr := class_ptr s;
     device_ptr := device_ptr s; dev := dev s; major := major s |}.
Definition set_class_ptr (p : ptr) (s : custom_dev_t) : custom_dev_t :=
  {| lock := lock s; cdev := cdev s; class_ptr := p;
     device_ptr := device_ptr s; dev := dev s; major := major s |}.
Definition set_device_ptr (p : ptr) (s : custom_dev_t) : custom_dev_t :=
  {| lock := lock s; cdev := cdev s; class_ptr := class_ptr s;
     device_ptr := p; dev := dev s; major := major s |}.
Definition set_dev (d : Z) (s : custom_dev_t) : custom_dev_t :=
  {| lock := lock s; cdev := cdev s; class_ptr := class_ptr s;
     device_ptr := device_ptr s; dev := d; major := major s |}.
Definition set_major (m : Z) (s : custom_dev_t) : custom_dev_t :=
  {| lock := lock s; cdev := cdev s; class_ptr := class_ptr s;
     device_ptr := device_ptr s; dev := dev s; major := m |}.

(** ** Kernel calls *)

(** The messages the driver hands to [printk], with their arguments. *)
Inductive kmsg : Type :=
| MsgOpenNoDevice (mj mn : Z)
| MsgOpenError (mj mn : Z)
| MsgOpened (name : string) (p : Z)
| MsgReleaseNoDevice (mj mn : Z)
| MsgReleaseInternal (mj mn : Z)
| MsgReleased
| MsgIoctl (name : string) (p : Z)
| MsgAllocFailed
| MsgClassCreateFailed
| MsgCdevAddFailed
| MsgDeviceCreateFailed.

(** One entry per kernel call with an effect, with the arguments the driver
    passed and, for a call whose result the driver looks at, that result.
    [K_mutex_destroy] carries the mutex as it is when it is destroyed. *)
Inductive kcall : Type :=
| K_printk (m : kmsg)
| K_alloc_chrdev_region (ret : Z)
| K_class_create (ret : ptr)
| K_cdev_init
| K_mutex_init
| K_cdev_add (d : Z) (count : Z) (ret : Z)
| K_device_create (cls : ptr) (d : Z) (ret : ptr)
| K_mutex_lock_interruptible (ret : Z)
| K_mutex_unlock
| K_mutex_destroy (m : mutex)
| K_device_destroy (cls : ptr) (d : Z)
| K_cdev_del
| K_class_destroy (cls : ptr)
| K_unregister_chrdev_region (d : Z) (count : Z).

(** ** Computations over the global object *)

Definition K (A : Type) : Type := custom_dev_t -> A * custom_dev_t * list kcall.

Definition ret {A} (a : A) : K A := fun s => (a, s, []).

Definition bind {A B} (m : K A) (f : A -> K B) : K B :=
  fun s =>
    let '(a, s1, t1) := m s in
    let '(b, s2, t2) := f a s1 in
    (b, s2, t1 ++ t2).

Declare Scope kernel_scope.
Delimit Scope kernel_scope with K.
Notation "x <- m ;; k" := (bind m (fun x => k))
  (at level 61, m at next level, right associativity) : kernel_scope.
Notation "m ;; k" := (bind m (fun _ => k))
  (at level 61, right associativity) : kernel_scope.
Local Open Scope kernel_scope.

Definition get : K custom_dev_t := fun s => (s, s, []).
Definition modify (f : custom_dev_t -> custom_dev_t) : K unit := fun s => (tt, f s, []).
Definition call (c : kcall) : K unit := fun s => (tt, s, [c]).
Definition printk (m : kmsg) : K unit := call (K_printk m).
Definition when (b : bool) (m : K unit) : K unit := if b then m else ret tt.

Definition result_of {A} (r : A * custom_dev_t * list kcall) : A := fst (fst r).
Definition state_of {A} (r : A * custom_dev_t * list kcall) : custom_dev_t := snd (fst r).
Definition calls_of {A} (r : A * custom_dev_t * list kcall) : list kcall := snd r.

(** ** The mutex service *)

(** Whether a signal reaches the caller while it waits for the mutex. *)
Inductive wait := Signalled | Undisturbed.

(** What a call into the driver has done so far: it returned a value, or it
    is asleep inside [mutex_lock_interruptible]. *)
Inductive outcome := Ret (r : Z) | Blocked.

(** [mutex_lock_interruptible(&custom_dev.lock)]: a free mutex is taken at
    once; on a held one the caller sleeps until the mutex is free, unless a
    signal ends the wait, which leaves the mutex as it is. *)
Definition mutex_lock_interruptible (w : wait) : K outcome :=
  s <- get ;;
  if mutex_is_locked (lock s) then
    match w with
    | Signalled => call (K_mutex_lock_interruptible (- EINTR)) ;; ret (Ret (- EINTR))
    | Undisturbed => ret Blocked
    end
  else
    modify (set_lock (mk_mutex true)) ;;
    call (K_mutex_lock_interruptible 0) ;;
    ret (Ret 0).

Definition mutex_unlock : K unit :=
  modify (set_lock (mk_mutex false)) ;; call K_mutex_unlock.

Definition mutex_init : K unit :=
  modify (set_lock (mk_mutex false)) ;; call K_mutex_init.

Definition mutex_destroy : K unit :=
  s <- get ;; call (K_mutex_destroy (lock s)).

(** ** The kernel's answers during initialisation *)

(** What the kernel answers to the four calls of [custom_init] that can fail:
    the return code of [alloc_chrdev_region] and the device number it stores
    when it succeeds, the pointer [class_create] returns, the return code of
    [cdev_add], and the pointer [device_create] returns. *)
Record platform := mk_platform {
  alloc_ret : Z;
  alloc_dev : Z;
  class_create_ret : ptr;
  cdev_add_ret : Z;
  device_create_ret : ptr
}.

(** [alloc_chrdev_region(&custom_dev.dev, 0, 1, name)]: the device number is
    stored only when the call succeeds (returns 0). *)
Definition alloc_chrdev_region (p : platform) : K Z :=
  when (alloc_ret p =? 0) (modify (set_dev (alloc_dev p))) ;;
  call (K_alloc_chrdev_region (alloc_ret p)) ;;
  ret (alloc_ret p).

Definition class_create (p : platform) : K ptr :=
  call (K_class_create (class_create_ret p)) ;; ret (class_create_ret p).

(** [cdev_init(&custom_dev.cdev, &fops)]: clears the structure and binds it to [fops]. *)
Definition cdev_init : K unit :=
  modify (set_cdev (mk_cdev true false)) ;; call K_cdev_init.

Definition cdev_add (p : platform) (d count : Z) : K Z :=
  call (K_cdev_add d count (cdev_add_ret p)) ;; ret (cdev_add_ret p).

Definition device_create (p : platform) (cls : ptr) (d : Z) : K ptr :=
  call (K_device_create cls d (device_create_ret p)) ;; ret (device_create_ret p).

(** ** The driver *)

Section Driver.

(** The [MAJOR] macro of the kernel headers, and the address of the global
    object's [cdev] member, [&(custom_dev.cdev)]. *)
Variable MAJOR : Z -> Z.
Variable cdev_addr : ptr.

(** [open]: the two identity checks, then the interruptible lock. *)
Definition open (ino : inode) (fileptr : ptr) (current : task) (w : wait) : K outcome :=
  let mj := to_uint (imajor ino) in
  let mn := to_uint (iminor ino) in
  s <- get ;;
  if uint_ne mj (major s) || uint_lt mn 0 then
    printk (MsgOpenNoDevice mj mn) ;; ret (Ret (-1))
  else if ptr_ne (i_cdev ino) cdev_addr then
    printk (MsgOpenError mj mn) ;; ret (Ret (-1))
  else
    r <- mutex_lock_interruptible w ;;
    match r with
    | Blocked => ret Blocked
    | Ret v =>
        if negb (v =? 0) then
          printk (MsgOpenError mj mn) ;; ret (Ret (-1))
        else
          printk (MsgOpened (comm current) (pid current)) ;; ret (Ret 0)
    end.

(** [release]: the same identity checks, then unlock if locked. *)
Definition release (ino : inode) (fileptr : ptr) : K Z :=
  let mj := to_uint (imajor ino) in
  let mn := to_uint (iminor ino) in
  s <- get ;;
  if uint_ne mj (major s) || uint_lt mn 0 then
    printk (MsgReleaseNoDevice mj mn) ;; ret (-1)
  else if ptr_ne (i_cdev ino) cdev_addr then
    printk (MsgReleaseInternal mj mn) ;; ret (-1)
  else
    when (mutex_is_locked (lock s)) mutex_unlock ;;
    printk MsgReleased ;;
    ret 0.

(** [ioctl]: one log line, result 0. *)
Definition ioctl (fileptr : ptr) (cmd arg : Z) (current : task) : K Z :=
  printk (MsgIoctl (comm current) (pid current)) ;; ret 0.

(** *** [cleanup] *)

(** The bodies under the five [case] labels of [cleanup]. *)
Definition cleanup_case0 : K unit :=
  s <- get ;;
  when (mutex_is_locked (lock s)) mutex_unlock ;;
  mutex_destroy.

Definition cleanup_case1 : K unit :=
  s <- get ;;
  when (ptr_ne (device_ptr s) NULL) (call (K_device_destroy (class_ptr s) (dev s))).

Definition cleanup_case2 : K unit := call K_cdev_del.

Definition cleanup_case3 : K unit :=
  s <- get ;;
  when (ptr_ne (class_ptr s) NULL) (call (K_class_destroy (class_ptr s))).

Definition cleanup_case4 : K unit :=
  s <- get ;;
  when (negb (dev s =? 0)) (call (K_unregister_chrdev_region (dev s) 1)).

Fixpoint run_all (bodies : list (K unit)) : K unit :=
  match bodies with
  | [] => ret tt
  | b :: rest => b ;; run_all rest
  end.

(** A [switch] none of whose cases ends in [break]: control enters at the
    matching label and falls through every later body; with no matching label
    it goes to [default], which only breaks. *)
Fixpoint switch (v : Z) (cases : list (Z * K unit)) : K unit :=
  match cases with
  | [] => ret tt
  | (label, body) :: rest =>
      if v =? label then run_all (body :: map snd rest) else switch v rest
  end.

Definition cleanup (err : Z) : K unit :=
  switch err [ (0, cleanup_case0); (1, cleanup_case1); (2, cleanup_case2);
               (3, cleanup_case3); (4, cleanup_case4) ].

(** *** [custom_init] and [custom_exit] *)

(** The [do { ... } while (0)] block; its result is the value of [err] when
    control leaves it. *)
Definition custom_init_steps (p : platform) : K Z :=
  r1 <- alloc_chrdev_region p ;;
  if negb (r1 =? 0) then
    printk MsgAllocFailed ;; ret 4
  else
    s <- get ;;
    modify (set_major (to_uint (MAJOR (dev s)))) ;;
    c <- class_create p ;;
    modify (set_class_ptr c) ;;
    if c =? NULL then
      printk MsgClassCreateFailed ;; ret 3
    else
      cdev_init ;;
      s <- get ;;
      modify (set_cdev (mk_cdev (cdev_ops (cdev s)) true)) ;;
      mutex_init ;;
      s <- get ;;
      r3 <- cdev_add p (dev s) 1 ;;
      if r3 =? -1 then
        printk MsgCdevAddFailed ;; ret 2
      else
        s <- get ;;
        d <- device_create p (class_ptr s) (dev s) ;;
        modify (set_device_ptr d) ;;
        if d =? NULL then
          printk MsgDeviceCreateFailed ;; ret 1
        else
          ret 0.

Definition custom_init (p : platform) : K Z :=
  err <- custom_init_steps p ;;
  if negb (err =? 0) then
    cleanup err ;; ret err
  else
    ret 0.

Definition custom_exit : K unit := cleanup 0.

(** ** Sequences of calls into the driver *)

(** One call made by the session layer.  A caller asleep in [open] shows up
    as a [Blocked] outcome; when it is woken it tries again, which is a later
    [Acquire] of the sequence. *)
Inductive op : Type :=
| Acquire (ino : inode) (fileptr : ptr) (current : task) (w : wait)
| Release (ino : inode) (fileptr : ptr)
| Command (fileptr : ptr) (cmd arg : Z) (current : task).

Definition exec (o : op) : K outcome :=
  match o with
  | Acquire ino f cur w => open ino f cur w
  | Release ino f => r <- release ino f ;; ret (Ret r)
  | Command f cmd arg cur => r <- ioctl f cmd arg cur ;; ret (Ret r)
  end.

(** Runs the calls in order; yields each call with its outcome. *)
Fixpoint run (ops : list op) : K (list (op * outcome)) :=
  match ops with
  | [] => ret []
  | o :: rest =>
      r <- exec o ;;
      rs <- run rest ;;
      ret ((o, r) :: rs)
  end.

End Driver.

Arguments open cdev_addr ino fileptr current w _ : assert.
Arguments release cdev_addr ino fileptr _ : assert.
Arguments exec cdev_addr o _ : assert.
Arguments run cdev_addr ops _ : assert.

(** ** Vocabulary of the specification *)

(** The identity a caller presents matches the registered one: the coarse
    identifier (major number) and the instance binding (the [cdev]). *)
Definition identity_ok (cdev_addr : ptr) (s : custom_dev_t) (ino : inode) : bool :=
  (to_uint (imajor ino) =? major s) && (i_cdev ino =? cdev_addr).

(** The same inode under another minor number. *)
Definition with_minor (ino : inode) (mn : Z) : inode :=
  mk_inode (imajor ino) mn (i_cdev ino).

(** A call failed: it returned, and not with 0. *)
Definition is_failure (o : outcome) : bool :=
  match o with
  | Ret r => negb (r =? 0)
  | Blocked => false
  end.

(** The ways [open] and [release] can fail. *)
Inductive failure_kind := WrongMajor | WrongInstance | InterruptedWait.

Definition identity_failure (cdev_addr : ptr) (s : custom_dev_t) (ino : inode)
  : option failure_kind :=
  if negb (to_uint (imajor ino) =? major s) then Some WrongMajor
  else if negb (i_cdev ino =? cdev_addr) then Some WrongInstance
  else None.

Definition failure_kind_of (cdev_addr : ptr) (o : op) (s : custom_dev_t)
  : option failure_kind :=
  match o with
  | Acquire ino _ _ w =>
      match identity_failure cdev_addr s ino with
      | Some k => Some k
      | None =>
          if mutex_is_locked (lock s) then
            match w with Signalled => Some InterruptedWait | Undisturbed => None end
          else None
      end
  | Release ino _ => identity_failure cdev_addr s ino
  | Command _ _ _ _ => None
  end.

(** Sessions outstanding after a history of calls, counted from what the
    calls returned: a successful Acquire opens one, a successful Release
    closes one if there is one. *)
Definition session_step (n : nat) (e : op * outcome) : nat :=
  match e with
  | (Acquire _ _ _ _, Ret 0) => S n
  | (Release _ _, Ret 0) => Nat.pred n
  | _ => n
  end.

Definition outstanding (history : list (op * outcome)) : nat :=
  fold_left session_step history 0%nat.

(** The history of the first [k] calls of [ops] from state [s]. *)
Definition history_upto (cdev_addr : ptr) (k : nat) (ops : list op) (s : custom_dev_t)
  : list (op * outcome) :=
  result_of (run cdev_addr (firstn k ops) s).

(** The files with a session outstanding after a history of calls: a
    successful Acquire adds its file, a successful Release removes its own. *)
Definition file_step (fs : list ptr) (e : op * outcome) : list ptr :=
  match e with
  | (Acquire _ f _ _, Ret 0) => f :: fs
  | (Release _ f, Ret 0) => remove Z.eq_dec f fs
  | _ => fs
  end.

Definition open_files (history : list (op * outcome)) : list ptr :=
  fold_left file_step history [].

(** The session layer's discipline: a file is closed only while its session
    is outstanding. *)
Definition closes_own (fs : list ptr) (e : op * outcome) : bool :=
  match e with
  | (Release _ f, Ret 0) => existsb (Z.eqb f) fs
  | _ => true
  end.

Fixpoint well_matched (fs : list ptr) (history : list (op * outcome)) : bool :=
  match history with
  | [] => true
  | e :: rest => closes_own fs e && well_matched (file_step fs e) rest
  end.

Definition is_printk (c : kcall) : bool :=
  match c with
  | K_printk _ => true
  | _ => false
  end.

(** A trace that holds nothing but log lines. *)
Definition only_logs (t : list kcall) : bool := forallb is_printk t.

(** The resources [custom_init] sets up, in order of acquisition. *)
Inductive resource : Type :=
| R_region (d : Z)
| R_class (cls : ptr)
| R_cdev
| R_device (cls : ptr) (d : Z).

(** The kernel call that gives a resource back. *)
Definition release_call (r : resource) : kcall :=
  match r with
  | R_region d => K_unregister_chrdev_region d 1
  | R_class cls => K_class_destroy cls
  | R_cdev => K_cdev_del
  | R_device cls d => K_device_destroy cls d
  end.

Definition is_release_call (c : kcall) : bool :=
  match c with
  | K_device_destroy _ _ | K_cdev_del | K_class_destroy _
  | K_unregister_chrdev_region _ _ => true
  | _ => false
  end.

(** The calls of a trace that give a resource back, in order. *)
Definition rollback_calls (t : list kcall) : list kcall := filter is_release_call t.

(** The setup step of [custom_init] that fails under the answers [p]
    (1 to 4), if any: the first whose answer the code takes for a failure. *)
Definition failing_step (p : platform) : option nat :=
  if negb (alloc_ret p =? 0) then Some 1%nat
  else if class_create_ret p =? NULL then Some 2%nat
  else if cdev_add_ret p =? -1 then Some 3%nat
  else if device_create_ret p =? NULL then Some 4%nat
  else None.

(** The resources of the four setup steps under the answers [p]. *)
Definition setup_resources (p : platform) : list resource :=
  [ R_region (alloc_dev p); R_class (class_create_ret p); R_cdev;
    R_device (class_create_ret p) (alloc_dev p) ].

(** The resources acquired before the failing step, in order of acquisition;
    all four when no step fails. *)
Definition acquired (p : platform) : list resource :=
  match failing_step p with
  | Some k => firstn (Nat.pred k) (setup_resources p)
  | None => setup_resources p
  end.

(** Rollback as the specification words it: every acquired resource, and
    only those, given back in reverse order of acquisition. *)
Definition spec_rollback (p : platform) : list kcall :=
  map release_call (rev (acquired p)).

(** The resources a fully registered object holds, in order of acquisition. *)
Definition held_resources (s : custom_dev_t) : list resource :=
  [ R_region (dev s); R_class (class_ptr s); R_cdev;
    R_device (class_ptr s) (dev s) ].

(** Initialisation has completed: the three handles are set. *)
Definition registered (s : custom_dev_t) : bool :=
  negb (dev s =? 0) && negb (class_ptr s =? NULL) && negb (device_ptr s =? NULL).

(** 1 when the lock is held, 0 when it is free. *)
Definition lock_count (s : custom_dev_t) : nat :=
  if mutex_is_locked (lock s) then 1%nat else 0%nat.

(** Two objects that differ at most in the lock. *)
Definition same_registration (s s' : custom_dev_t) : Prop :=
  cdev s' = cdev s /\ class_ptr s' = class_ptr s /\ device_ptr s' = device_ptr s /\
  dev s' = dev s /\ major s' = major s.

(** A call made only under a guard. *)
Definition guarded (b : bool) (c : kcall) : list kcall := if b then [c] else [].

(** Successful lock calls and unlock calls of a trace. *)
Definition is_lock_taken (c : kcall) : bool :=
  match c with
  | K_mutex_lock_interruptible 0 => true
  | _ => false
  end.

Definition is_unlock (c : kcall) : bool :=
  match c with
  | K_mutex_unlock => true
  | _ => false
  end.

Definition locks_taken (t : list kcall) : nat := List.length (filter is_lock_taken t).
Definition unlocks (t : list kcall) : nat := List.length (filter is_unlock t).

(** A trace in which a held mutex is destroyed. *)
Definition destroys_locked (t : list kcall) : bool :=
  existsb (fun c => match c with
                    | K_mutex_destroy m => mutex_is_locked m
                    | _ => false
                    end) t.

(** A trace that unlocks or destroys the mutex. *)
Definition tears_mutex_down (t : list kcall) : bool :=
  existsb (fun c => match c with
                    | K_mutex_unlock | K_mutex_destroy _ => true
                    | _ => false
                    end) t.

Definition is_mutex_init (c : kcall) : bool :=
  match c with
  | K_mutex_init => true
  | _ => false
  end.

Definition is_command (o : op) : bool :=
  match o with
  | Command _ _ _ _ => true
  | _ => false
  end.

(** ** Concrete inputs *)

Module Ex.

(** [MAJOR] with the kernel's 20 minor bits. *)
Definition MAJOR (d : Z) : Z := Z.shiftr d 20.
Definition cdev_addr : ptr := 4096.

Definition answers_ok : platform := mk_platform 0 (Z.shiftl 240 20) 8192 0 12288.
Definition answers_alloc_fails : platform := mk_platform (-16) 0 0 0 0.
Definition answers_class_fails : platform := mk_platform 0 (Z.shiftl 240 20) NULL 0 0.
Definition answers_cdev_add_fails : platform := mk_platform 0 (Z.shiftl 240 20) 8192 (-1) 0.
Definition answers_device_fails : platform := mk_platform 0 (Z.shiftl 240 20) 8192 0 NULL.

Definition s_idle : custom_dev_t := state_of (custom_init MAJOR answers_ok custom_dev0).
Definition s_locked : custom_dev_t := set_lock (mk_mutex true) s_idle.

Definition node : inode := mk_inode 240 0 cdev_addr.
Definition node_wrong_major : inode := mk_inode 7 0 cdev_addr.
Definition node_wrong_cdev : inode := mk_inode 240 0 20480.

Definition alice : task := mk_task "alice" 101.
Definition bob : task := mk_task "bob" 102.

(** [cdev_add] answers [-ENOMEM]. *)
Definition answers_cdev_add_enomem : platform :=
  mk_platform 0 (Z.shiftl 240 20) 8192 (-12) 12288.

(** Alice opens, Bob's open has to wait, Alice closes, Bob's open goes through. *)
Definition handover : list op :=
  [ Acquire node 1 alice Undisturbed;
    Acquire node 2 bob Undisturbed;
    Release node 1;
    Acquire node 2 bob Undisturbed ].

End Ex.

(** ** Proof steps *)

Ltac unfold_driver :=
  unfold custom_init, custom_init_steps, custom_exit, cleanup, switch, run_all,
    cleanup_case0, cleanup_case1, cleanup_case2, cleanup_case3, cleanup_case4,
    alloc_chrdev_region, class_create, cdev_init, cdev_add, device_create,
    mutex_init, mutex_unlock, mutex_destroy, printk, when, ptr_ne, NULL.

Ltac crunch :=
  repeat (progress (simpl;
                    repeat match goal with
                           | H : (_ =? _) = _ |- _ => rewrite H
                           end)).

Ltac run_driver :=
  unfold bind, get, modify, call, ret, result_of, state_of, calls_of; simpl.

(** ** Unsigned comparison *)

Lemma to_uint_range (z : Z) : 0 <= to_uint z < 2 ^ 32.
Proof. unfold to_uint. apply Z.mod_pos_bound. lia. Qed.

Lemma uint_lt_zero (a : Z) : uint_lt a 0 = false.
Proof.
  unfold uint_lt. change (to_uint 0) with 0.
  apply Z.ltb_ge. apply to_uint_range.
Qed.

(** ** What one call does *)

Section Calls.

Variable cdev_addr : ptr.

Lemma open_cases (ino : inode) (f : ptr) (cur : task) (w : wait) (s : custom_dev_t) :
  open cdev_addr ino f cur w s =
  let mj := to_uint (imajor ino) in
  let mn := to_uint (iminor ino) in
  if negb (mj =? major s) then
    (Ret (-1), s, [K_printk (MsgOpenNoDevice mj mn)])
  else if negb (i_cdev ino =? cdev_addr) then
    (Ret (-1), s, [K_printk (MsgOpenError mj mn)])
  else if mutex_is_locked (lock s) then
    match w with
    | Signalled =>
        (Ret (-1), s, [K_mutex_lock_interruptible (- EINTR); K_printk (MsgOpenError mj mn)])
    | Undisturbed => (Blocked, s, [])
    end
  else
    (Ret 0, set_lock (mk_mutex true) s,
     [K_mutex_lock_interruptible 0; K_printk (MsgOpened (comm cur) (pid cur))]).
Proof.
  unfold open, bind, get, uint_ne, ptr_ne. cbv zeta.
  rewrite uint_lt_zero, orb_false_r.
  destruct (negb (to_uint (imajor ino) =? major s)); [reflexivity|].
  destruct (negb (i_cdev ino =? cdev_addr)); [reflexivity|].
  unfold mutex_lock_interruptible, bind, get.
  destruct (mutex_is_locked (lock s)); [destruct w|]; reflexivity.
Qed.

Lemma release_cases (ino : inode) (f : ptr) (s : custom_dev_t) :
  release cdev_addr ino f s =
  let mj := to_uint (imajor ino) in
  let mn := to_uint (iminor ino) in
  if negb (mj =? major s) then
    (-1, s, [K_printk (MsgReleaseNoDevice mj mn)])
  else if negb (i_cdev ino =? cdev_addr) then
    (-1, s, [K_printk (MsgReleaseInternal mj mn)])
  else if mutex_is_locked (lock s) then
    (0, set_lock (mk_mutex false) s, [K_mutex_unlock; K_printk MsgReleased])
  else
    (0, s, [K_printk MsgReleased]).
Proof.
  unfold release, bind, get, uint_ne, ptr_ne. cbv zeta.
  rewrite uint_lt_zero, orb_false_r.
  destruct (negb (to_uint (imajor ino) =? major s)); [reflexivity|].
  destruct (negb (i_cdev ino =? cdev_addr)); [reflexivity|].
  destruct (mutex_is_locked (lock s)); reflexivity.
Qed.

Lemma identity_ok_split (s : custom_dev_t) (ino : inode) :
  identity_ok cdev_addr s ino = true ->
  negb (to_uint (imajor ino) =? major s) = false /\
  negb (i_cdev ino =? cdev_addr) = false.
Proof.
  unfold identity_ok. intros H. apply andb_prop in H as [H1 H2].
  rewrite H1, H2. split; reflexivity.
Qed.

Lemma set_lock_same (s : custom_dev_t) (b : bool) :
  mutex_is_locked (lock s) = b -> set_lock (mk_mutex b) s = s.
Proof. destruct s as [[l] c cp dp d m]. simpl. intros ->. reflexivity. Qed.

Lemma same_registration_refl (s : custom_dev_t) : same_registration s s.
Proof. repeat split. Qed.

Lemma same_registration_trans (s1 s2 s3 : custom_dev_t) :
  same_registration s1 s2 -> same_registration s2 s3 -> same_registration s1 s3.
Proof.
  unfold same_registration.
  intros (A1 & A2 & A3 & A4 & A5) (B1 & B2 & B3 & B4 & B5).
  repeat split; congruence.
Qed.

Lemma exec_same_registration (o : op) (s : custom_dev_t) :
  same_registration s (state_of (exec cdev_addr o s)).
Proof.
  destruct o as [ino f cur w | ino f | f cmd arg cur]; unfold exec.
  - rewrite open_cases. cbv zeta.
    destruct (negb _); [apply same_registration_refl|].
    destruct (negb _); [apply same_registration_refl|].
    destruct (mutex_is_locked _); [destruct w|];
      first [apply same_registration_refl | repeat split].
  - unfold bind. rewrite release_cases. cbv zeta.
    destruct (negb _); [apply same_registration_refl|].
    destruct (negb _); [apply same_registration_refl|].
    destruct (mutex_is_locked _);
      first [apply same_registration_refl | repeat split].
  - apply same_registration_refl.
Qed.

Lemma run_cons (o : op) (ops : list op) (s : custom_dev_t) :
  run cdev_addr (o :: ops) s =
  let r := exec cdev_addr o s in
  let rs := run cdev_addr ops (state_of r) in
  ((o, result_of r) :: result_of rs, state_of rs, calls_of r ++ calls_of rs).
Proof.
  simpl. unfold bind, result_of, state_of, calls_of.
  destruct (exec cdev_addr o s) as [[r s1] t1]. simpl.
  destruct (run cdev_addr ops s1) as [[rs s2] t2]. simpl.
  rewrite app_nil_r. reflexivity.
Qed.

Lemma run_cons_result (o : op) (ops : list op) (s : custom_dev_t) :
  result_of (run cdev_addr (o :: ops) s) =
  (o, result_of (exec cdev_addr o s))
    :: result_of (run cdev_addr ops (state_of (exec cdev_addr o s))).
Proof. rewrite run_cons. reflexivity. Qed.

Lemma run_cons_state (o : op) (ops : list op) (s : custom_dev_t) :
  state_of (run cdev_addr (o :: ops) s) =
  state_of (run cdev_addr ops (state_of (exec cdev_addr o s))).
Proof. rewrite run_cons. reflexivity. Qed.

Lemma run_same_registration (ops : list op) (s : custom_dev_t) :
  same_registration s (state_of (run cdev_addr ops s)).
Proof.
  revert s. induction ops as [|o ops IH]; intros s.
  - apply same_registration_refl.
  - rewrite run_cons_state.
    eapply same_registration_trans; [apply exec_same_registration | apply IH].
Qed.

Lemma identity_ok_same_registration (s s' : custom_dev_t) (ino : inode) :
  same_registration s s' -> identity_ok cdev_addr s' ino = identity_ok cdev_addr s ino.
Proof.
  intros (_ & _ & _ & _ & Hm). unfold identity_ok. rewrite Hm. reflexivity.
Qed.

End Calls.

(** ** The model on concrete inputs *)

Example init_ok :
  custom_init Ex.MAJOR Ex.answers_ok custom_dev0 =
  (0,
   mk_custom_dev (mk_mutex false) (mk_cdev true true) 8192 12288 251658240 240,
   [ K_alloc_chrdev_region 0; K_class_create 8192; K_cdev_init; K_mutex_init;
     K_cdev_add 251658240 1 0; K_device_create 8192 251658240 12288 ]).
Proof. reflexivity. Qed.

Example init_alloc_fails :
  custom_init Ex.MAJOR Ex.answers_alloc_fails custom_dev0 =
  (4, custom_dev0, [K_alloc_chrdev_region (-16); K_printk MsgAllocFailed]).
Proof. reflexivity. Qed.

Example init_cdev_add_fails :
  calls_of (custom_init Ex.MAJOR Ex.answers_cdev_add_fails custom_dev0) =
  [ K_alloc_chrdev_region 0; K_class_create 8192; K_cdev_init; K_mutex_init;
    K_cdev_add 251658240 1 (-1); K_printk MsgCdevAddFailed;
    K_cdev_del; K_class_destroy 8192; K_unregister_chrdev_region 251658240 1 ].
Proof. reflexivity. Qed.

Example init_device_fails :
  calls_of (custom_init Ex.MAJOR Ex.answers_device_fails custom_dev0) =
  [ K_alloc_chrdev_region 0; K_class_create 8192; K_cdev_init; K_mutex_init;
    K_cdev_add 251658240 1 0; K_device_create 8192 251658240 0;
    K_printk MsgDeviceCreateFailed;
    K_cdev_del; K_class_destroy 8192; K_unregister_chrdev_region 251658240 1 ].
Proof. reflexivity. Qed.

Example handover_outcomes :
  map snd (result_of (run Ex.cdev_addr Ex.handover Ex.s_idle)) =
  [Ret 0; Blocked; Ret 0; Ret 0].
Proof. reflexivity. Qed.

Example open_interrupted :
  open Ex.cdev_addr Ex.node 2 Ex.bob Signalled Ex.s_locked =
  (Ret (-1), Ex.s_locked,
   [K_mutex_lock_interruptible (-4); K_printk (MsgOpenError 240 0)]).
Proof. reflexivity. Qed.

Example open_negative_minor :
  result_of (open Ex.cdev_addr (mk_inode 240 (-1) Ex.cdev_addr) 1 Ex.alice
               Undisturbed Ex.s_idle) = Ret 0.
Proof. reflexivity. Qed.

Example release_wrong_major :
  release Ex.cdev_addr Ex.node_wrong_major 1 Ex.s_locked =
  (-1, Ex.s_locked, [K_printk (MsgReleaseNoDevice 7 0)]).
Proof. reflexivity. Qed.

Example release_by_another_file :
  map snd (result_of (run Ex.cdev_addr
                        [ Acquire Ex.node 1 Ex.alice Undisturbed;
                          Release Ex.node 2;
                          Acquire Ex.node 3 Ex.bob Undisturbed ] Ex.s_idle)) =
  [Ret 0; Ret 0; Ret 0].
Proof. reflexivity. Qed.

(** ** Mutual exclusion *)

Lemma exec_session_step (cdev_addr : ptr) (o : op) (s : custom_dev_t) :
  session_step (lock_count s) (o, result_of (exec cdev_addr o s)) =
  lock_count (state_of (exec cdev_addr o s)).
Proof.
  destruct o as [ino f cur w | ino f | f cmd arg cur]; unfold exec.
  - rewrite open_cases. cbv zeta.
    destruct (negb _); [reflexivity|].
    destruct (negb _); [reflexivity|].
    unfold lock_count, result_of, state_of.
    destruct (mutex_is_locked (lock s)) eqn:L; [destruct w|]; simpl;
      rewrite ?L; reflexivity.
  - unfold bind. rewrite release_cases. cbv zeta.
    destruct (negb _); [reflexivity|].
    destruct (negb _); [reflexivity|].
    unfold lock_count, result_of, state_of.
    destruct (mutex_is_locked (lock s)) eqn:L; simpl; rewrite ?L; reflexivity.
  - reflexivity.
Qed.

Lemma run_outstanding (cdev_addr : ptr) (ops : list op) :
  forall s : custom_dev_t,
    fold_left session_step (result_of (run cdev_addr ops s)) (lock_count s) =
    lock_count (state_of (run cdev_addr ops s)).
Proof.
  induction ops as [|o ops IH]; intros s.
  - reflexivity.
  - rewrite run_cons_result, run_cons_state.
    cbn [fold_left]. rewrite exec_session_step. apply IH.
Qed.

Lemma open_success_lock (cdev_addr : ptr) (ino : inode) (f : ptr) (cur : task)
      (w : wait) (s : custom_dev_t) :
  result_of (open cdev_addr ino f cur w s) = Ret 0 ->
  identity_ok cdev_addr s ino = true /\
  mutex_is_locked (lock s) = false /\
  mutex_is_locked (lock (state_of (open cdev_addr ino f cur w s))) = true.
Proof.
  rewrite open_cases. cbv zeta. unfold identity_ok.
  destruct (to_uint (imajor ino) =? major s); simpl; [|discriminate].
  destruct (i_cdev ino =? cdev_addr); simpl; [|discriminate].
  destruct (mutex_is_locked (lock s)); [destruct w; discriminate|].
  intros _. repeat split.
Qed.

(** C1.  From a free lock, after every prefix of every sequence of Acquire,
    Release and Command calls at most one session is outstanding, and one is
    outstanding exactly when the lock is held; an Acquire succeeds only on a
    free lock and leaves it held. *)
Theorem at_most_one_session (cdev_addr : ptr) (ops : list op) (s : custom_dev_t) :
  mutex_is_locked (lock s) = false ->
  (forall k : nat,
      (outstanding (history_upto cdev_addr k ops s) <= 1)%nat /\
      (outstanding (history_upto cdev_addr k ops s) = 1%nat <->
       mutex_is_locked (lock (state_of (run cdev_addr (firstn k ops) s))) = true)) /\
  (forall (s1 : custom_dev_t) (ino : inode) (f : ptr) (cur : task) (w : wait),
      result_of (open cdev_addr ino f cur w s1) = Ret 0 ->
      mutex_is_locked (lock s1) = false /\
      mutex_is_locked (lock (state_of (open cdev_addr ino f cur w s1))) = true).
Proof.
  intros Hfree. split.
  - intros k. unfold outstanding, history_upto.
    assert (H0 : lock_count s = 0%nat) by (unfold lock_count; now rewrite Hfree).
    pose proof (run_outstanding cdev_addr (firstn k ops) s) as R.
    rewrite H0 in R. rewrite R. unfold lock_count.
    destruct (mutex_is_locked (lock (state_of _)));
      split; try lia; split; congruence.
  - intros s1 ino f cur w H. apply open_success_lock in H. tauto.
Qed.

Lemma at_most_one_session_witness :
  mutex_is_locked (lock Ex.s_idle) = false /\
  (outstanding (history_upto Ex.cdev_addr 3 Ex.handover Ex.s_idle) <= 1)%nat.
Proof.
  split; [reflexivity|].
  apply (at_most_one_session Ex.cdev_addr Ex.handover Ex.s_idle eq_refl).
Defined.

(** The driver does not look at which file a Release comes from (see
    [release_by_another_file]).  When every file is closed only while its own
    session is outstanding, the files with an outstanding session are as many
    as the lock count, so at most one. *)
Lemma exec_file_step (cdev_addr : ptr) (o : op) (s : custom_dev_t) (fs : list ptr) :
  List.length fs = lock_count s ->
  closes_own fs (o, result_of (exec cdev_addr o s)) = true ->
  List.length (file_step fs (o, result_of (exec cdev_addr o s))) =
  lock_count (state_of (exec cdev_addr o s)).
Proof.
  intros Hlen. destruct o as [ino f cur w | ino f | f cmd arg cur]; unfold exec.
  - rewrite open_cases. cbv zeta.
    destruct (negb _); [intros _; exact Hlen|].
    destruct (negb _); [intros _; exact Hlen|].
    unfold lock_count, result_of, state_of in *.
    destruct (mutex_is_locked (lock s)) eqn:L; [destruct w|]; simpl;
      rewrite ?L; intros _; lia.
  - unfold bind. rewrite release_cases. cbv zeta.
    destruct (negb _); [intros _; exact Hlen|].
    destruct (negb _); [intros _; exact Hlen|].
    unfold lock_count, result_of, state_of in *.
    destruct (mutex_is_locked (lock s)) eqn:L; simpl.
    + destruct fs as [|g [|g' fs]]; try discriminate Hlen.
      simpl. rewrite orb_false_r. intros E. apply Z.eqb_eq in E. subst g.
      destruct (Z.eq_dec f f); [reflexivity | contradiction].
    + destruct fs; [discriminate | discriminate Hlen].
  - intros _. exact Hlen.
Qed.

Lemma one_open_file_when_matched (cdev_addr : ptr) (ops : list op) :
  forall (s : custom_dev_t) (fs : list ptr),
    List.length fs = lock_count s ->
    well_matched fs (result_of (run cdev_addr ops s)) = true ->
    (List.length (fold_left file_step (result_of (run cdev_addr ops s)) fs) <= 1)%nat.
Proof.
  induction ops as [|o ops IH]; intros s fs Hlen Hwm.
  - simpl. rewrite Hlen. unfold lock_count. destruct (mutex_is_locked _); lia.
  - rewrite run_cons_result in *. cbn [fold_left well_matched] in *.
    apply andb_prop in Hwm as [Hown Hrest].
    apply (IH (state_of (exec cdev_addr o s))); [|exact Hrest].
    apply exec_file_step; assumption.
Qed.

(** From a free lock, when every file is released only while its own session
    is outstanding, at most one file has an outstanding session. *)
Corollary one_open_file (cdev_addr : ptr) (ops : list op) (s : custom_dev_t) :
  mutex_is_locked (lock s) = false ->
  well_matched [] (result_of (run cdev_addr ops s)) = true ->
  (List.length (open_files (result_of (run cdev_addr ops s))) <= 1)%nat.
Proof.
  intros Hfree. apply one_open_file_when_matched.
  unfold lock_count. now rewrite Hfree.
Qed.

Lemma one_open_file_witness :
  mutex_is_locked (lock Ex.s_idle) = false /\
  well_matched [] (result_of (run Ex.cdev_addr Ex.handover Ex.s_idle)) = true /\
  (List.length (open_files (result_of (run Ex.cdev_addr Ex.handover Ex.s_idle))) <= 1)%nat.
Proof.
  split; [reflexivity|]. split; [reflexivity|].
  apply (one_open_file Ex.cdev_addr Ex.handover Ex.s_idle eq_refl eq_refl).
Defined.

(** ** Release *)

(** C3.  With a matching identity, Release on a free lock returns 0 and
    leaves the object as it is; a second Release in a row returns 0 too and
    changes nothing more, so every later Acquire behaves as after one. *)
Theorem release_idempotent (cdev_addr : ptr) (s : custom_dev_t) (ino : inode) (f : ptr) :
  identity_ok cdev_addr s ino = true ->
  (mutex_is_locked (lock s) = false ->
   release cdev_addr ino f s = (0, s, [K_printk MsgReleased])) /\
  (let s1 := state_of (release cdev_addr ino f s) in
   let s2 := state_of (release cdev_addr ino f s1) in
   result_of (release cdev_addr ino f s) = 0 /\
   result_of (release cdev_addr ino f s1) = 0 /\
   s2 = s1 /\
   forall (ino' : inode) (f' : ptr) (cur : task) (w : wait),
     open cdev_addr ino' f' cur w s2 = open cdev_addr ino' f' cur w s1).
Proof.
  intros Hid. pose proof (identity_ok_split _ _ _ Hid) as [Hm Hc].
  split.
  - intros Hfree. rewrite release_cases. cbv zeta. rewrite Hm, Hc, Hfree. reflexivity.
  - cbv zeta.
    assert (H1 : release cdev_addr ino f s =
                 (0, set_lock (mk_mutex false) s,
                  if mutex_is_locked (lock s)
                  then [K_mutex_unlock; K_printk MsgReleased]
                  else [K_printk MsgReleased])).
    { rewrite release_cases. cbv zeta. rewrite Hm, Hc.
      destruct (mutex_is_locked (lock s)) eqn:L; [reflexivity|].
      now rewrite (set_lock_same s false L). }
    rewrite H1. unfold state_of, result_of. simpl fst. simpl snd.
    assert (H2 : release cdev_addr ino f (set_lock (mk_mutex false) s) =
                 (0, set_lock (mk_mutex false) s, [K_printk MsgReleased])).
    { rewrite release_cases. cbv zeta. simpl. rewrite Hm, Hc. reflexivity. }
    rewrite H2. simpl. repeat split.
Qed.

Lemma release_idempotent_witness :
  identity_ok Ex.cdev_addr Ex.s_idle Ex.node = true /\
  release Ex.cdev_addr Ex.node 1 Ex.s_idle = (0, Ex.s_idle, [K_printk MsgReleased]).
Proof.
  split; [reflexivity|].
  apply (release_idempotent Ex.cdev_addr Ex.s_idle Ex.node 1 eq_refl). reflexivity.
Defined.

(** C8, as first worded, fails: with a foreign major number Release returns
    -1, on an idle registered object or any other. *)
Lemma release_can_fail :
  ~ (forall (cdev_addr : ptr) (ino : inode) (f : ptr) (s : custom_dev_t),
        result_of (release cdev_addr ino f s) = 0).
Proof.
  intros H. specialize (H Ex.cdev_addr Ex.node_wrong_major 1 Ex.s_idle).
  vm_compute in H. discriminate H.
Qed.

Lemma open_success_identity (cdev_addr : ptr) (ino : inode) (f : ptr) (cur : task)
      (w : wait) (s : custom_dev_t) :
  result_of (open cdev_addr ino f cur w s) = Ret 0 ->
  identity_ok cdev_addr (state_of (open cdev_addr ino f cur w s)) ino = true.
Proof.
  intros H. pose proof (open_success_lock _ _ _ _ _ _ H) as [Hid _].
  rewrite (identity_ok_same_registration cdev_addr s); [exact Hid|].
  apply (exec_same_registration cdev_addr (Acquire ino f cur w) s).
Qed.

(** C8, amended.  Once the presented identity matches, which it does after a
    successful Acquire on the same inode, Release returns 0 in that state and
    in every state later calls lead to, whether the lock is held or free. *)
Theorem release_succeeds_on_match (cdev_addr : ptr) (s : custom_dev_t) (ino : inode)
        (f : ptr) (ops : list op) :
  identity_ok cdev_addr s ino = true ->
  result_of (release cdev_addr ino f (state_of (run cdev_addr ops s))) = 0.
Proof.
  intros Hid.
  rewrite <- (identity_ok_same_registration cdev_addr s _ ino
                (run_same_registration cdev_addr ops s)) in Hid.
  apply identity_ok_split in Hid as [Hm Hc].
  rewrite release_cases. cbv zeta. rewrite Hm, Hc.
  destruct (mutex_is_locked _); reflexivity.
Qed.

Lemma release_succeeds_on_match_witness :
  identity_ok Ex.cdev_addr Ex.s_idle Ex.node = true /\
  result_of (release Ex.cdev_addr Ex.node 2
               (state_of (run Ex.cdev_addr Ex.handover Ex.s_idle))) = 0.
Proof.
  split; [reflexivity|].
  apply (release_succeeds_on_match Ex.cdev_addr Ex.s_idle Ex.node 2 Ex.handover eq_refl).
Defined.

(** ** Failures of Acquire and Release *)

(** C4.  An Acquire with a matching identity whose wait on the held lock is
    ended by a signal returns -1 and leaves the object as it was, so any
    later Acquire does what it would have done without it. *)
Theorem interrupted_open_leaves_lock (cdev_addr : ptr) (s : custom_dev_t)
        (ino : inode) (f : ptr) (cur : task) :
  identity_ok cdev_addr s ino = true ->
  mutex_is_locked (lock s) = true ->
  result_of (open cdev_addr ino f cur Signalled s) = Ret (-1) /\
  state_of (open cdev_addr ino f cur Signalled s) = s /\
  In (K_mutex_lock_interruptible (- EINTR)) (calls_of (open cdev_addr ino f cur Signalled s)) /\
  forall (ino' : inode) (f' : ptr) (cur' : task) (w' : wait),
    open cdev_addr ino' f' cur' w' (state_of (open cdev_addr ino f cur Signalled s)) =
    open cdev_addr ino' f' cur' w' s.
Proof.
  intros Hid Hheld. apply identity_ok_split in Hid as [Hm Hc].
  rewrite (open_cases cdev_addr ino f cur Signalled s). cbv zeta.
  rewrite Hm, Hc, Hheld.
  repeat split. left. reflexivity.
Qed.

Lemma interrupted_open_leaves_lock_witness :
  identity_ok Ex.cdev_addr Ex.s_locked Ex.node = true /\
  mutex_is_locked (lock Ex.s_locked) = true /\
  state_of (open Ex.cdev_addr Ex.node 2 Ex.bob Signalled Ex.s_locked) = Ex.s_locked.
Proof.
  split; [reflexivity|]. split; [reflexivity|].
  apply (interrupted_open_leaves_lock Ex.cdev_addr Ex.s_locked Ex.node 2 Ex.bob
           eq_refl eq_refl).
Defined.

(** C5.  When the presented identity differs from the registered one, in the
    major number or in the [cdev] binding, Acquire and Release both return -1
    and leave the object exactly as it was; the one kernel call either makes
    is the [printk] of its error line. *)
Theorem mismatch_fails_without_change (cdev_addr : ptr) (s : custom_dev_t)
        (ino : inode) (f : ptr) (cur : task) (w : wait) :
  identity_ok cdev_addr s ino = false ->
  (result_of (open cdev_addr ino f cur w s) = Ret (-1) /\
   state_of (open cdev_addr ino f cur w s) = s /\
   only_logs (calls_of (open cdev_addr ino f cur w s)) = true) /\
  (result_of (release cdev_addr ino f s) = -1 /\
   state_of (release cdev_addr ino f s) = s /\
   only_logs (calls_of (release cdev_addr ino f s)) = true).
Proof.
  unfold identity_ok. intros Hid.
  rewrite open_cases, release_cases. cbv zeta.
  destruct (to_uint (imajor ino) =? major s); simpl negb; cbv iota.
  - simpl in Hid. rewrite Hid. simpl. repeat split.
  - repeat split.
Qed.

Lemma mismatch_fails_without_change_witness :
  identity_ok Ex.cdev_addr Ex.s_locked Ex.node_wrong_cdev = false /\
  state_of (release Ex.cdev_addr Ex.node_wrong_cdev 1 Ex.s_locked) = Ex.s_locked.
Proof.
  split; [reflexivity|].
  apply (mismatch_fails_without_change Ex.cdev_addr Ex.s_locked Ex.node_wrong_cdev
           1 Ex.alice Undisturbed eq_refl).
Defined.

(** C10.  Whatever makes an Acquire or a Release fail (wrong major number,
    wrong [cdev] binding, interrupted wait), the value returned is -1; a call
    that falls under none of the three does not fail. *)
Theorem every_failure_returns_minus_one (cdev_addr : ptr) (o : op) (s : custom_dev_t) :
  match failure_kind_of cdev_addr o s with
  | Some _ => result_of (exec cdev_addr o s) = Ret (-1)
  | None => is_failure (result_of (exec cdev_addr o s)) = false
  end.
Proof.
  destruct o as [ino f cur w | ino f | f cmd arg cur];
    unfold exec, failure_kind_of, identity_failure.
  - rewrite open_cases. cbv zeta.
    destruct (negb (to_uint (imajor ino) =? major s)); [reflexivity|].
    destruct (negb (i_cdev ino =? cdev_addr)); [reflexivity|].
    destruct (mutex_is_locked (lock s)); [destruct w|]; reflexivity.
  - unfold bind. rewrite release_cases. cbv zeta.
    destruct (negb (to_uint (imajor ino) =? major s)); [reflexivity|].
    destruct (negb (i_cdev ino =? cdev_addr)); [reflexivity|].
    destruct (mutex_is_locked (lock s)); reflexivity.
  - reflexivity.
Qed.

(** ** The minor number *)

(** C9.  The test [mn < 0] is false for every minor number, and neither the
    result nor the effect on the object of Acquire or Release depends on the
    minor number presented. *)
Theorem minor_check_vacuous (cdev_addr : ptr) (s : custom_dev_t) (ino : inode)
        (mn : Z) (f : ptr) (cur : task) (w : wait) :
  uint_lt (to_uint mn) 0 = false /\
  result_of (open cdev_addr (with_minor ino mn) f cur w s) =
    result_of (open cdev_addr ino f cur w s) /\
  state_of (open cdev_addr (with_minor ino mn) f cur w s) =
    state_of (open cdev_addr ino f cur w s) /\
  result_of (release cdev_addr (with_minor ino mn) f s) =
    result_of (release cdev_addr ino f s) /\
  state_of (release cdev_addr (with_minor ino mn) f s) =
    state_of (release cdev_addr ino f s).
Proof.
  split; [apply uint_lt_zero|].
  rewrite !open_cases, !release_cases. cbv zeta. simpl.
  destruct (negb (to_uint (imajor ino) =? major s)); [repeat split|].
  destruct (negb (i_cdev ino =? cdev_addr)); [repeat split|].
  destruct (mutex_is_locked (lock s)); [destruct w|]; repeat split.
Qed.

(** ** Command *)

(** C6.  For every command code, argument and caller, in every state, held
    or free, [ioctl] returns 0, leaves the object untouched and makes one
    kernel call, the [printk] naming the caller; the command code and the
    argument have no influence on what it does. *)
Theorem ioctl_constant (f : ptr) (cmd arg : Z) (cur : task) (s : custom_dev_t) :
  result_of (ioctl f cmd arg cur s) = 0 /\
  state_of (ioctl f cmd arg cur s) = s /\
  calls_of (ioctl f cmd arg cur s) = [K_printk (MsgIoctl (comm cur) (pid cur))] /\
  mutex_is_locked (lock (state_of (ioctl f cmd arg cur s))) = mutex_is_locked (lock s) /\
  forall (f' : ptr) (cmd' arg' : Z), ioctl f' cmd' arg' cur s = ioctl f cmd arg cur s.
Proof. repeat split. Qed.

(** ** Initialisation and teardown *)

Section Lifecycle.

Variable MAJOR : Z -> Z.

(** What [custom_init] does on the zero-filled object, by the step that fails. *)
Lemma custom_init_cases (p : platform) :
  alloc_dev p <> 0 ->
  custom_init MAJOR p custom_dev0 =
  match failing_step p with
  | Some 1%nat =>
      (4, custom_dev0, [K_alloc_chrdev_region (alloc_ret p); K_printk MsgAllocFailed])
  | Some 2%nat =>
      (3,
       set_major (to_uint (MAJOR (alloc_dev p))) (set_dev (alloc_dev p) custom_dev0),
       [K_alloc_chrdev_region (alloc_ret p); K_class_create (class_create_ret p);
        K_printk MsgClassCreateFailed;
        K_unregister_chrdev_region (alloc_dev p) 1])
  | Some 3%nat =>
      (2,
       mk_custom_dev (mk_mutex false) (mk_cdev true true) (class_create_ret p) NULL
                     (alloc_dev p) (to_uint (MAJOR (alloc_dev p))),
       [K_alloc_chrdev_region (alloc_ret p); K_class_create (class_create_ret p);
        K_cdev_init; K_mutex_init; K_cdev_add (alloc_dev p) 1 (cdev_add_ret p);
        K_printk MsgCdevAddFailed;
        K_cdev_del; K_class_destroy (class_create_ret p);
        K_unregister_chrdev_region (alloc_dev p) 1])
  | Some _ =>
      (1,
       mk_custom_dev (mk_mutex false) (mk_cdev true true) (class_create_ret p) NULL
                     (alloc_dev p) (to_uint (MAJOR (alloc_dev p))),
       [K_alloc_chrdev_region (alloc_ret p); K_class_create (class_create_ret p);
        K_cdev_init; K_mutex_init; K_cdev_add (alloc_dev p) 1 (cdev_add_ret p);
        K_device_create (class_create_ret p) (alloc_dev p) (device_create_ret p);
        K_printk MsgDeviceCreateFailed;
        K_cdev_del; K_class_destroy (class_create_ret p);
        K_unregister_chrdev_region (alloc_dev p) 1])
  | None =>
      (0,
       mk_custom_dev (mk_mutex false) (mk_cdev true true) (class_create_ret p)
                     (device_create_ret p) (alloc_dev p)
                     (to_uint (MAJOR (alloc_dev p))),
       [K_alloc_chrdev_region (alloc_ret p); K_class_create (class_create_ret p);
        K_cdev_init; K_mutex_init; K_cdev_add (alloc_dev p) 1 (cdev_add_ret p);
        K_device_create (class_create_ret p) (alloc_dev p) (device_create_ret p)])
  end.
Proof.
  intros Hdev. apply Z.eqb_neq in Hdev.
  destruct p as [ar ad cr car dr]. simpl in Hdev.
  unfold failing_step. unfold_driver. run_driver.
  destruct (ar =? 0) eqn:E1; crunch; [|reflexivity].
  destruct (cr =? 0) eqn:E2; crunch.
  { apply Z.eqb_eq in E2. subst cr. reflexivity. }
  destruct (car =? -1) eqn:E3; crunch; [reflexivity|].
  destruct (dr =? 0) eqn:E4; crunch; [|reflexivity].
  apply Z.eqb_eq in E4. subst dr. reflexivity.
Qed.

End Lifecycle.

(** What [custom_exit] does on any object. *)
Lemma custom_exit_cases (s : custom_dev_t) :
  custom_exit s =
  (tt, set_lock (mk_mutex false) s,
   guarded (mutex_is_locked (lock s)) K_mutex_unlock ++
   [K_mutex_destroy (mk_mutex false)] ++
   guarded (negb (device_ptr s =? NULL)) (K_device_destroy (class_ptr s) (dev s)) ++
   [K_cdev_del] ++
   guarded (negb (class_ptr s =? NULL)) (K_class_destroy (class_ptr s)) ++
   guarded (negb (dev s =? 0)) (K_unregister_chrdev_region (dev s) 1)).
Proof.
  destruct s as [[l] c cp dp d m].
  unfold_driver. run_driver. unfold guarded, set_lock. simpl.
  destruct l, (dp =? 0) eqn:Ev, (cp =? 0) eqn:Ec, (d =? 0) eqn:Ed;
    crunch; reflexivity.
Qed.

Lemma registered_split (s : custom_dev_t) :
  registered s = true ->
  (dev s =? 0) = false /\ (class_ptr s =? NULL) = false /\ (device_ptr s =? NULL) = false.
Proof.
  unfold registered. intros H.
  apply andb_prop in H as [H H3]. apply andb_prop in H as [H1 H2].
  apply negb_true_iff in H1, H2, H3. auto.
Qed.

Lemma registered_same_registration (s s' : custom_dev_t) :
  same_registration s s' -> registered s' = registered s.
Proof.
  intros (_ & Hc & Hd & Hv & _). unfold registered. now rewrite Hc, Hd, Hv.
Qed.

(** A successful [custom_init] leaves a registered, idle object that holds
    the four resources of its setup steps. *)
Lemma custom_init_registered (MAJOR : Z -> Z) (p : platform) :
  alloc_dev p <> 0 ->
  result_of (custom_init MAJOR p custom_dev0) = 0 ->
  let s := state_of (custom_init MAJOR p custom_dev0) in
  registered s = true /\ mutex_is_locked (lock s) = false /\
  held_resources s = setup_resources p /\ failing_step p = None.
Proof.
  intros Hdev. rewrite (custom_init_cases MAJOR p Hdev). cbv zeta.
  unfold failing_step.
  destruct (negb (alloc_ret p =? 0)); [discriminate|].
  destruct (class_create_ret p =? NULL) eqn:E2; [discriminate|].
  destruct (cdev_add_ret p =? -1); [discriminate|].
  destruct (device_create_ret p =? NULL) eqn:E4; [discriminate|].
  intros _. unfold registered, state_of. simpl.
  apply Z.eqb_neq in Hdev. rewrite Hdev, E2, E4. repeat split.
Qed.

(** Calls into the driver keep a registered object registered. *)
Lemma run_registered (cdev_addr : ptr) (ops : list op) (s : custom_dev_t) :
  registered (state_of (run cdev_addr ops s)) = registered s.
Proof. apply registered_same_registration, run_same_registration. Qed.

(** C7.  On a registered object [custom_exit] unlocks the mutex if it is
    held, destroys it unlocked, and then gives back what [custom_init] set up
    in the opposite order: device, cdev, class, region.  On any object at all
    the device, class and region calls are made exactly when their handle is
    set, and are skipped otherwise.  [custom_exit] yields no error value. *)
Theorem teardown_reverses_init (s : custom_dev_t) :
  registered s = true ->
  result_of (custom_exit s) = tt /\
  state_of (custom_exit s) = set_lock (mk_mutex false) s /\
  calls_of (custom_exit s) =
    guarded (mutex_is_locked (lock s)) K_mutex_unlock ++
    K_mutex_destroy (mk_mutex false) :: map release_call (rev (held_resources s)) /\
  forall s' : custom_dev_t,
    rollback_calls (calls_of (custom_exit s')) =
      guarded (negb (device_ptr s' =? NULL)) (K_device_destroy (class_ptr s') (dev s')) ++
      [K_cdev_del] ++
      guarded (negb (class_ptr s' =? NULL)) (K_class_destroy (class_ptr s')) ++
      guarded (negb (dev s' =? 0)) (K_unregister_chrdev_region (dev s') 1).
Proof.
  intros Hreg. apply registered_split in Hreg as (Hd & Hc & Hv).
  rewrite custom_exit_cases. unfold result_of, state_of, calls_of. simpl fst. simpl snd.
  repeat split.
  - rewrite Hd, Hc, Hv. reflexivity.
  - intros s'. rewrite custom_exit_cases. simpl snd. unfold guarded.
    destruct (mutex_is_locked (lock s')), (device_ptr s' =? NULL),
      (class_ptr s' =? NULL), (dev s' =? 0); reflexivity.
Qed.

Lemma teardown_reverses_init_witness :
  registered Ex.s_locked = true /\
  calls_of (custom_exit Ex.s_locked) =
    [ K_mutex_unlock; K_mutex_destroy (mk_mutex false);
      K_device_destroy 8192 (Z.shiftl 240 20); K_cdev_del;
      K_class_destroy 8192; K_unregister_chrdev_region (Z.shiftl 240 20) 1 ].
Proof.
  split; [reflexivity|].
  apply (teardown_reverses_init Ex.s_locked eq_refl).
Defined.

(** C2, as first worded, fails: when [cdev_add] is the step that fails,
    [cleanup] also calls [cdev_del], although the cdev was never added. *)
Lemma rollback_not_only_acquired :
  ~ (forall p : platform,
        alloc_dev p <> 0 -> failing_step p <> None ->
        rollback_calls (calls_of (custom_init Ex.MAJOR p custom_dev0)) = spec_rollback p).
Proof.
  intros H. specialize (H Ex.answers_cdev_add_fails).
  assert (Hd : alloc_dev Ex.answers_cdev_add_fails <> 0) by (vm_compute; discriminate).
  assert (Hf : failing_step Ex.answers_cdev_add_fails <> None) by (vm_compute; discriminate).
  specialize (H Hd Hf). vm_compute in H. discriminate H.
Qed.

(** C2, amended.  When a setup step of [custom_init] fails, [cleanup] gives
    back every resource acquired so far in reverse order of acquisition, and
    [custom_init] returns the non-zero stage code 4, 3, 2 or 1.  The one call
    beyond those is [cdev_del] when the failing step is the third,
    [cdev_add], made first.  A failure at the second step gives back exactly
    the region of the first.  With no failing step nothing is given back and
    the result is 0. *)
Theorem init_rollback_reverse_order (MAJOR : Z -> Z) (p : platform) :
  alloc_dev p <> 0 ->
  match failing_step p with
  | Some k =>
      result_of (custom_init MAJOR p custom_dev0) = 5 - Z.of_nat k /\
      result_of (custom_init MAJOR p custom_dev0) <> 0 /\
      rollback_calls (calls_of (custom_init MAJOR p custom_dev0)) =
        guarded (k =? 3)%nat K_cdev_del ++ spec_rollback p /\
      (k = 2%nat ->
       rollback_calls (calls_of (custom_init MAJOR p custom_dev0)) =
         [K_unregister_chrdev_region (alloc_dev p) 1])
  | None =>
      result_of (custom_init MAJOR p custom_dev0) = 0 /\
      rollback_calls (calls_of (custom_init MAJOR p custom_dev0)) = []
  end.
Proof.
  intros Hdev. rewrite (custom_init_cases MAJOR p Hdev).
  unfold spec_rollback, acquired, failing_step.
  destruct (negb (alloc_ret p =? 0)).
  { simpl. repeat split; [discriminate | discriminate]. }
  destruct (class_create_ret p =? NULL).
  { simpl. repeat split. discriminate. }
  destruct (cdev_add_ret p =? -1).
  { simpl. repeat split; [discriminate | discriminate]. }
  destruct (device_create_ret p =? NULL).
  { simpl. repeat split; [discriminate | discriminate]. }
  simpl. split; reflexivity.
Qed.

Lemma init_rollback_reverse_order_witness :
  alloc_dev Ex.answers_class_fails <> 0 /\
  result_of (custom_init Ex.MAJOR Ex.answers_class_fails custom_dev0) = 3 /\
  rollback_calls (calls_of (custom_init Ex.MAJOR Ex.answers_class_fails custom_dev0)) =
    [K_unregister_chrdev_region (Z.shiftl 240 20) 1].
Proof.
  assert (Hd : alloc_dev Ex.answers_class_fails <> 0) by (vm_compute; lia).
  split; [exact Hd|].
  pose proof (init_rollback_reverse_order Ex.MAJOR Ex.answers_class_fails Hd) as H.
  change (failing_step Ex.answers_class_fails) with (Some 2%nat) in H.
  destruct H as (H1 & _ & _ & H4). split; [exact H1 | exact (H4 eq_refl)].
Defined.

(** ** Further properties of [cleanup] *)

(** What [cleanup] does for each stage code, on any object. *)
Lemma cleanup_cases (err : Z) (s : custom_dev_t) :
  cleanup err s =
  let g_device :=
    guarded (negb (device_ptr s =? NULL)) (K_device_destroy (class_ptr s) (dev s)) in
  let g_class := guarded (negb (class_ptr s =? NULL)) (K_class_destroy (class_ptr s)) in
  let g_region := guarded (negb (dev s =? 0)) (K_unregister_chrdev_region (dev s) 1) in
  if err =? 0 then custom_exit s
  else if err =? 1 then (tt, s, g_device ++ [K_cdev_del] ++ g_class ++ g_region)
  else if err =? 2 then (tt, s, [K_cdev_del] ++ g_class ++ g_region)
  else if err =? 3 then (tt, s, g_class ++ g_region)
  else if err =? 4 then (tt, s, g_region)
  else (tt, s, []).
Proof.
  cbv zeta. unfold custom_exit, cleanup, switch.
  destruct (err =? 0); [reflexivity|].
  destruct s as [[l] c cp dp d m].
  destruct (err =? 1); [|destruct (err =? 2); [|destruct (err =? 3); [|destruct (err =? 4)]]];
    unfold_driver; run_driver; unfold guarded; simpl;
    destruct (dp =? 0) eqn:Ev, (cp =? 0) eqn:Ec, (d =? 0) eqn:Ed; crunch; reflexivity.
Qed.

(** A stage code outside 0..4 reaches [default]: nothing is called and the
    object is left as it is. *)
Theorem cleanup_unknown_code (err : Z) (s : custom_dev_t) :
  err < 0 \/ 4 < err ->
  cleanup err s = (tt, s, []).
Proof.
  intros H. rewrite cleanup_cases. cbv zeta.
  assert (E0 : (err =? 0) = false) by (apply Z.eqb_neq; lia).
  assert (E1 : (err =? 1) = false) by (apply Z.eqb_neq; lia).
  assert (E2 : (err =? 2) = false) by (apply Z.eqb_neq; lia).
  assert (E3 : (err =? 3) = false) by (apply Z.eqb_neq; lia).
  assert (E4 : (err =? 4) = false) by (apply Z.eqb_neq; lia).
  rewrite E0, E1, E2, E3, E4. reflexivity.
Qed.

Lemma cleanup_unknown_code_witness :
  (7 < 0 \/ 4 < 7) /\ cleanup 7 Ex.s_locked = (tt, Ex.s_locked, []).
Proof.
  assert (H : 7 < 0 \/ 4 < 7) by lia.
  split; [exact H|]. apply (cleanup_unknown_code 7 Ex.s_locked H).
Defined.

Lemma forallb_guarded (f : kcall -> bool) (b : bool) (c : kcall) :
  f c = true -> forallb f (guarded b c) = true.
Proof. intros H. destruct b; simpl; [now rewrite H | reflexivity]. Qed.

(** On a failure path (any non-zero stage code) [cleanup] leaves the whole
    object as it is, the mutex included, and calls nothing but the four
    give-back services. *)
Theorem cleanup_failure_path_only_releases (err : Z) (s : custom_dev_t) :
  err <> 0 ->
  state_of (cleanup err s) = s /\
  forallb is_release_call (calls_of (cleanup err s)) = true.
Proof.
  intros H. apply Z.eqb_neq in H. rewrite cleanup_cases. cbv zeta. rewrite H.
  destruct (err =? 1); [|destruct (err =? 2); [|destruct (err =? 3); [|destruct (err =? 4)]]];
    unfold state_of, calls_of; simpl fst; simpl snd; (split; [reflexivity|]);
    repeat first [ rewrite forallb_app
                 | rewrite forallb_guarded by reflexivity
                 | progress simpl ];
    reflexivity.
Qed.

Lemma cleanup_failure_path_only_releases_witness :
  2 <> 0 /\ state_of (cleanup 2 Ex.s_locked) = Ex.s_locked.
Proof.
  assert (H : 2 <> 0) by lia.
  split; [exact H|]. apply (cleanup_failure_path_only_releases 2 Ex.s_locked H).
Defined.

Lemma custom_exit_rollback (s : custom_dev_t) :
  rollback_calls (calls_of (custom_exit s)) =
  guarded (negb (device_ptr s =? NULL)) (K_device_destroy (class_ptr s) (dev s)) ++
  [K_cdev_del] ++
  guarded (negb (class_ptr s =? NULL)) (K_class_destroy (class_ptr s)) ++
  guarded (negb (dev s =? 0)) (K_unregister_chrdev_region (dev s) 1).
Proof.
  rewrite custom_exit_cases. unfold calls_of, guarded. simpl snd.
  destruct (mutex_is_locked (lock s)), (device_ptr s =? NULL),
    (class_ptr s =? NULL), (dev s =? 0); reflexivity.
Qed.

(** Fall-through: what [cleanup] calls for stage [err + 1] is the tail of
    what it calls for stage [err]. *)
Theorem cleanup_falls_through (err : Z) (s : custom_dev_t) :
  0 <= err ->
  exists pre : list kcall,
    calls_of (cleanup err s) = pre ++ calls_of (cleanup (err + 1) s).
Proof.
  intros Hpos.
  destruct (Z.eq_dec err 0) as [-> | N0].
  { exists (guarded (mutex_is_locked (lock s)) K_mutex_unlock ++
            [K_mutex_destroy (mk_mutex false)]).
    rewrite !cleanup_cases. cbv zeta. simpl (_ =? _).
    rewrite custom_exit_cases. unfold calls_of. simpl snd.
    rewrite <- app_assoc. reflexivity. }
  destruct (Z.eq_dec err 1) as [-> | N1].
  { eexists. rewrite !cleanup_cases. cbv zeta. simpl (_ =? _).
    unfold calls_of. simpl snd. reflexivity. }
  destruct (Z.eq_dec err 2) as [-> | N2].
  { exists [K_cdev_del]. rewrite !cleanup_cases. reflexivity. }
  destruct (Z.eq_dec err 3) as [-> | N3].
  { eexists. rewrite !cleanup_cases. cbv zeta. simpl (_ =? _).
    unfold calls_of. simpl snd. reflexivity. }
  exists (calls_of (cleanup err s)).
  rewrite (cleanup_cases (err + 1) s). cbv zeta.
  assert (E0 : (err + 1 =? 0) = false) by (apply Z.eqb_neq; lia).
  assert (E1 : (err + 1 =? 1) = false) by (apply Z.eqb_neq; lia).
  assert (E2 : (err + 1 =? 2) = false) by (apply Z.eqb_neq; lia).
  assert (E3 : (err + 1 =? 3) = false) by (apply Z.eqb_neq; lia).
  assert (E4 : (err + 1 =? 4) = false) by (apply Z.eqb_neq; lia).
  rewrite E0, E1, E2, E3, E4.
  unfold calls_of. simpl snd. now rewrite app_nil_r.
Qed.

Lemma cleanup_falls_through_witness :
  0 <= 1 /\
  exists pre : list kcall,
    calls_of (cleanup 1 Ex.s_idle) = pre ++ calls_of (cleanup 2 Ex.s_idle).
Proof.
  assert (H : 0 <= 1) by lia.
  split; [exact H|]. apply (cleanup_falls_through 1 Ex.s_idle H).
Defined.

(** [custom_exit] leaves every handle set, so a second [custom_exit] on a
    registered object gives all four resources back once more. *)
Theorem teardown_twice_releases_twice (s : custom_dev_t) :
  registered s = true ->
  same_registration s (state_of (custom_exit s)) /\
  rollback_calls (calls_of (custom_exit s)) = map release_call (rev (held_resources s)) /\
  rollback_calls (calls_of (custom_exit (state_of (custom_exit s)))) =
    map release_call (rev (held_resources s)).
Proof.
  intros Hreg. apply registered_split in Hreg as (Hd & Hc & Hv).
  assert (Hs : state_of (custom_exit s) = set_lock (mk_mutex false) s)
    by (rewrite custom_exit_cases; reflexivity).
  rewrite !custom_exit_rollback, Hs. simpl.
  rewrite Hd, Hc, Hv. repeat split.
Qed.

Lemma teardown_twice_releases_twice_witness :
  registered Ex.s_locked = true /\
  rollback_calls (calls_of (custom_exit (state_of (custom_exit Ex.s_locked)))) =
    map release_call (rev (held_resources Ex.s_locked)).
Proof.
  split; [reflexivity|].
  apply (teardown_twice_releases_twice Ex.s_locked eq_refl).
Defined.

(** Whatever the stage code and the object, [cleanup] never destroys a held
    mutex: it unlocks first. *)
Theorem cleanup_destroys_unlocked (err : Z) (s : custom_dev_t) :
  destroys_locked (calls_of (cleanup err s)) = false.
Proof.
  rewrite cleanup_cases. cbv zeta.
  destruct (err =? 0).
  { rewrite custom_exit_cases. unfold calls_of, guarded. simpl snd.
    destruct (mutex_is_locked (lock s)), (device_ptr s =? NULL),
      (class_ptr s =? NULL), (dev s =? 0); reflexivity. }
  destruct (err =? 1); [|destruct (err =? 2); [|destruct (err =? 3); [|destruct (err =? 4)]]];
    unfold calls_of, guarded; simpl snd;
    destruct (device_ptr s =? NULL), (class_ptr s =? NULL), (dev s =? 0); reflexivity.
Qed.

(** ** Further properties of [custom_init] *)

(** A successful run of [custom_init], whatever device number comes back. *)
Lemma custom_init_success (MAJOR : Z -> Z) (p : platform) :
  failing_step p = None ->
  custom_init MAJOR p custom_dev0 =
  (0,
   mk_custom_dev (mk_mutex false) (mk_cdev true true) (class_create_ret p)
                 (device_create_ret p) (alloc_dev p) (to_uint (MAJOR (alloc_dev p))),
   [K_alloc_chrdev_region (alloc_ret p); K_class_create (class_create_ret p);
    K_cdev_init; K_mutex_init; K_cdev_add (alloc_dev p) 1 (cdev_add_ret p);
    K_device_create (class_create_ret p) (alloc_dev p) (device_create_ret p)]).
Proof.
  destruct p as [ar ad cr car dr]. unfold failing_step. simpl.
  unfold NULL.
  destruct (ar =? 0) eqn:E1; simpl; [|discriminate].
  destruct (cr =? 0) eqn:E2; simpl; [discriminate|].
  destruct (car =? -1) eqn:E3; simpl; [discriminate|].
  destruct (dr =? 0) eqn:E4; simpl; [discriminate|]. intros _.
  unfold_driver. run_driver. crunch. reflexivity.
Qed.

(** Only the value -1 from [cdev_add] counts as a failure.  With any other
    answer, a negative error code included, [custom_init] goes on to
    [device_create] and returns 0 without giving anything back. *)
Theorem cdev_add_failure_only_minus_one (MAJOR : Z -> Z) (p : platform) :
  alloc_ret p = 0 ->
  class_create_ret p <> NULL ->
  device_create_ret p <> NULL ->
  cdev_add_ret p <> -1 ->
  result_of (custom_init MAJOR p custom_dev0) = 0 /\
  In (K_device_create (class_create_ret p) (alloc_dev p) (device_create_ret p))
     (calls_of (custom_init MAJOR p custom_dev0)) /\
  rollback_calls (calls_of (custom_init MAJOR p custom_dev0)) = [].
Proof.
  intros H1 H2 H4 H3.
  assert (Hf : failing_step p = None).
  { unfold failing_step. rewrite H1. simpl.
    apply Z.eqb_neq in H2, H3, H4. now rewrite H2, H3, H4. }
  rewrite (custom_init_success MAJOR p Hf).
  unfold result_of, calls_of. simpl. repeat split; auto 10.
Qed.

Lemma cdev_add_failure_only_minus_one_witness :
  cdev_add_ret Ex.answers_cdev_add_enomem = -12 /\
  result_of (custom_init Ex.MAJOR Ex.answers_cdev_add_enomem custom_dev0) = 0.
Proof.
  split; [reflexivity|].
  assert (H1 : alloc_ret Ex.answers_cdev_add_enomem = 0) by reflexivity.
  assert (H2 : class_create_ret Ex.answers_cdev_add_enomem <> NULL)
    by (vm_compute; lia).
  assert (H4 : device_create_ret Ex.answers_cdev_add_enomem <> NULL)
    by (vm_compute; lia).
  assert (H3 : cdev_add_ret Ex.answers_cdev_add_enomem <> -1)
    by (vm_compute; lia).
  apply (cdev_add_failure_only_minus_one Ex.MAJOR Ex.answers_cdev_add_enomem
           H1 H2 H4 H3).
Defined.

(** [custom_init] returns 0 exactly when it leaves the object registered
    (all three handles set); after any failure [device_ptr] is NULL. *)
Theorem init_ok_iff_registered (MAJOR : Z -> Z) (p : platform) :
  alloc_dev p <> 0 ->
  (result_of (custom_init MAJOR p custom_dev0) = 0 <->
   registered (state_of (custom_init MAJOR p custom_dev0)) = true) /\
  (result_of (custom_init MAJOR p custom_dev0) <> 0 ->
   device_ptr (state_of (custom_init MAJOR p custom_dev0)) = NULL).
Proof.
  intros Hdev. rewrite (custom_init_cases MAJOR p Hdev).
  apply Z.eqb_neq in Hdev. unfold failing_step.
  destruct (negb (alloc_ret p =? 0)).
  { unfold result_of, state_of, registered. simpl. repeat split; try discriminate. }
  destruct (class_create_ret p =? NULL) eqn:E2.
  { unfold result_of, state_of, registered. simpl.
    rewrite andb_false_r. repeat split; try discriminate. }
  destruct (cdev_add_ret p =? -1).
  { unfold result_of, state_of, registered. simpl.
    rewrite andb_false_r. repeat split; try discriminate. }
  destruct (device_create_ret p =? NULL) eqn:E4.
  { unfold result_of, state_of, registered. simpl.
    rewrite andb_false_r. repeat split; try discriminate. }
  unfold result_of, state_of, registered. simpl. rewrite Hdev, E2, E4.
  repeat split. intros H. now contradiction H.
Qed.

Lemma init_ok_iff_registered_witness :
  alloc_dev Ex.answers_device_fails <> 0 /\
  device_ptr (state_of (custom_init Ex.MAJOR Ex.answers_device_fails custom_dev0)) = NULL.
Proof.
  assert (Hd : alloc_dev Ex.answers_device_fails <> 0) by (vm_compute; lia).
  split; [exact Hd|].
  apply (proj2 (init_ok_iff_registered Ex.MAJOR Ex.answers_device_fails Hd)).
  vm_compute. lia.
Defined.

(** [custom_init] never unlocks or destroys the mutex, on any path.  It
    initialises the mutex exactly when the first two steps succeed, so when
    [cdev_add] or [device_create] then fails the mutex stays initialised. *)
Theorem init_never_tears_mutex_down (MAJOR : Z -> Z) (p : platform) :
  tears_mutex_down (calls_of (custom_init MAJOR p custom_dev0)) = false /\
  existsb is_mutex_init (calls_of (custom_init MAJOR p custom_dev0)) =
    (alloc_ret p =? 0) && negb (class_create_ret p =? NULL).
Proof.
  destruct p as [ar ad cr car dr]. unfold NULL. simpl.
  unfold_driver. run_driver.
  destruct (ar =? 0) eqn:E1; crunch; [|split; reflexivity].
  destruct (ad =? 0) eqn:E0; crunch;
    (destruct (cr =? 0) eqn:E2; crunch; [split; reflexivity|]);
    (destruct (car =? -1) eqn:E3; crunch; [split; reflexivity|]);
    (destruct (dr =? 0) eqn:E4; crunch; split; reflexivity).
Qed.

(** ** The whole life of the device *)

(** After a successful [custom_init] and any calls into the driver,
    [custom_exit] gives back exactly the four resources [custom_init] set up,
    each once, in the opposite order, and destroys the mutex unlocked. *)
Theorem init_run_exit_round_trip (MAJOR : Z -> Z) (cdev_addr : ptr) (p : platform)
        (ops : list op) :
  alloc_dev p <> 0 ->
  result_of (custom_init MAJOR p custom_dev0) = 0 ->
  let s1 := state_of (custom_init MAJOR p custom_dev0) in
  let s2 := state_of (run cdev_addr ops s1) in
  rollback_calls (calls_of (custom_init MAJOR p custom_dev0)) = [] /\
  rollback_calls (calls_of (custom_exit s2)) = map release_call (rev (setup_resources p)) /\
  In (K_mutex_destroy (mk_mutex false)) (calls_of (custom_exit s2)) /\
  mutex_is_locked (lock (state_of (custom_exit s2))) = false.
Proof.
  intros Hdev Hok. cbv zeta.
  pose proof (custom_init_registered MAJOR p Hdev Hok) as (Hreg & _ & Hheld & Hnone).
  cbv zeta in Hreg, Hheld.
  set (s1 := state_of (custom_init MAJOR p custom_dev0)) in *.
  pose proof (run_same_registration cdev_addr ops s1) as Hsame.
  set (s2 := state_of (run cdev_addr ops s1)) in *.
  assert (Hreg2 : registered s2 = true)
    by (rewrite (registered_same_registration s1 s2 Hsame); exact Hreg).
  assert (Hheld2 : held_resources s2 = setup_resources p).
  { rewrite <- Hheld. destruct Hsame as (_ & Hc & _ & Hd & _).
    unfold held_resources. now rewrite Hc, Hd. }
  apply registered_split in Hreg2 as (Hd & Hc & Hv).
  split.
  { unfold s1 in *. rewrite (custom_init_success MAJOR p Hnone). reflexivity. }
  rewrite custom_exit_rollback, custom_exit_cases, <- Hheld2.
  unfold calls_of, state_of. simpl fst. simpl snd. rewrite Hd, Hc, Hv.
  repeat split. apply in_or_app. right. left. reflexivity.
Qed.

Lemma init_run_exit_round_trip_witness :
  alloc_dev Ex.answers_ok <> 0 /\
  rollback_calls
    (calls_of (custom_exit
                 (state_of (run Ex.cdev_addr Ex.handover
                              (state_of (custom_init Ex.MAJOR Ex.answers_ok custom_dev0)))))) =
  map release_call (rev (setup_resources Ex.answers_ok)).
Proof.
  assert (Hd : alloc_dev Ex.answers_ok <> 0) by (vm_compute; lia).
  split; [exact Hd|].
  apply (init_run_exit_round_trip Ex.MAJOR Ex.cdev_addr Ex.answers_ok Ex.handover
           Hd eq_refl).
Defined.

(** The first open after a successful [custom_init] goes through, whatever
    the signal state, for an inode that carries the major number of the
    allocated device number and the driver's [cdev]. *)
Theorem first_open_after_init (MAJOR : Z -> Z) (cdev_addr : ptr) (p : platform)
        (ino : inode) (f : ptr) (cur : task) (w : wait) :
  result_of (custom_init MAJOR p custom_dev0) = 0 ->
  to_uint (imajor ino) = to_uint (MAJOR (alloc_dev p)) ->
  i_cdev ino = cdev_addr ->
  let s1 := state_of (custom_init MAJOR p custom_dev0) in
  result_of (open cdev_addr ino f cur w s1) = Ret 0 /\
  state_of (open cdev_addr ino f cur w s1) = set_lock (mk_mutex true) s1.
Proof.
  intros Hok Hmaj Hcdev. cbv zeta.
  assert (Hnone : failing_step p = None).
  { destruct (failing_step p) as [k|] eqn:E; [|reflexivity]. exfalso.
    revert Hok E. destruct p as [ar ad cr car dr]. unfold failing_step, NULL. simpl.
    unfold_driver. run_driver.
    destruct (ar =? 0) eqn:E1; crunch; [|discriminate].
    destruct (ad =? 0) eqn:E0; crunch;
      (destruct (cr =? 0) eqn:E2; crunch; [discriminate|]);
      (destruct (car =? -1) eqn:E3; crunch; [discriminate|]);
      (destruct (dr =? 0) eqn:E4; crunch; discriminate). }
  rewrite (custom_init_success MAJOR p Hnone). unfold state_of at 1 3 4. simpl fst. simpl snd.
  rewrite open_cases. cbv zeta. simpl major. simpl lock.
  rewrite Hmaj, Z.eqb_refl, Hcdev, Z.eqb_refl. simpl. split; reflexivity.
Qed.

Lemma first_open_after_init_witness :
  result_of (custom_init Ex.MAJOR Ex.answers_ok custom_dev0) = 0 /\
  result_of (open Ex.cdev_addr Ex.node 1 Ex.alice Signalled Ex.s_idle) = Ret 0.
Proof.
  split; [reflexivity|].
  apply (first_open_after_init Ex.MAJOR Ex.cdev_addr Ex.answers_ok Ex.node 1
           Ex.alice Signalled eq_refl eq_refl eq_refl).
Defined.

(** ** Further properties of [open], [release] and [ioctl] *)

Lemma set_lock_set_lock (m m' : mutex) (s : custom_dev_t) :
  set_lock m (set_lock m' s) = set_lock m s.
Proof. reflexivity. Qed.

(** Open on a free lock followed by release, through any file, brings the
    object back to exactly what it was; both calls return 0. *)
Theorem open_release_round_trip (cdev_addr : ptr) (s : custom_dev_t) (ino : inode)
        (f f' : ptr) (cur : task) (w : wait) :
  identity_ok cdev_addr s ino = true ->
  mutex_is_locked (lock s) = false ->
  let s1 := state_of (open cdev_addr ino f cur w s) in
  result_of (open cdev_addr ino f cur w s) = Ret 0 /\
  result_of (release cdev_addr ino f' s1) = 0 /\
  state_of (release cdev_addr ino f' s1) = s.
Proof.
  intros Hid Hfree. cbv zeta.
  apply identity_ok_split in Hid as [Hm Hc].
  rewrite open_cases. cbv zeta. rewrite Hm, Hc, Hfree.
  unfold state_of at 1 3, result_of at 1. simpl fst. simpl snd.
  rewrite release_cases. cbv zeta. simpl major. rewrite Hm, Hc. simpl.
  repeat split. unfold state_of. simpl fst. simpl snd.
  rewrite set_lock_set_lock. apply set_lock_same. exact Hfree.
Qed.

Lemma open_release_round_trip_witness :
  identity_ok Ex.cdev_addr Ex.s_idle Ex.node = true /\
  mutex_is_locked (lock Ex.s_idle) = false /\
  state_of (release Ex.cdev_addr Ex.node 1
              (state_of (open Ex.cdev_addr Ex.node 1 Ex.alice Undisturbed Ex.s_idle)))
  = Ex.s_idle.
Proof.
  split; [reflexivity|]. split; [reflexivity|].
  apply (open_release_round_trip Ex.cdev_addr Ex.s_idle Ex.node 1 1 Ex.alice
           Undisturbed eq_refl eq_refl).
Defined.

(** An open that finds the lock held and gets no signal sleeps: it changes
    nothing and calls nothing.  Once any release with a matching identity has
    run, the same open returns 0 and holds the lock. *)
Theorem blocked_open_granted_after_release (cdev_addr : ptr) (s : custom_dev_t)
        (ino ino' : inode) (f f' : ptr) (cur : task) :
  identity_ok cdev_addr s ino = true ->
  identity_ok cdev_addr s ino' = true ->
  mutex_is_locked (lock s) = true ->
  open cdev_addr ino f cur Undisturbed s = (Blocked, s, []) /\
  let s1 := state_of (release cdev_addr ino' f' s) in
  result_of (open cdev_addr ino f cur Undisturbed s1) = Ret 0 /\
  mutex_is_locked (lock (state_of (open cdev_addr ino f cur Undisturbed s1))) = true.
Proof.
  intros Hid Hid' Hheld.
  apply identity_ok_split in Hid as [Hm Hc].
  apply identity_ok_split in Hid' as [Hm' Hc'].
  split.
  - rewrite open_cases. cbv zeta. rewrite Hm, Hc, Hheld. reflexivity.
  - cbv zeta. rewrite release_cases. cbv zeta. rewrite Hm', Hc', Hheld.
    unfold state_of at 1 3. simpl fst. simpl snd.
    rewrite open_cases. cbv zeta. simpl major. rewrite Hm, Hc. simpl.
    split; reflexivity.
Qed.

Lemma blocked_open_granted_after_release_witness :
  identity_ok Ex.cdev_addr Ex.s_locked Ex.node = true /\
  mutex_is_locked (lock Ex.s_locked) = true /\
  open Ex.cdev_addr Ex.node 2 Ex.bob Undisturbed Ex.s_locked = (Blocked, Ex.s_locked, []).
Proof.
  split; [reflexivity|]. split; [reflexivity|].
  apply (blocked_open_granted_after_release Ex.cdev_addr Ex.s_locked Ex.node Ex.node
           2 1 Ex.bob eq_refl eq_refl eq_refl).
Defined.

Lemma run_cons_calls (cdev_addr : ptr) (o : op) (ops : list op) (s : custom_dev_t) :
  calls_of (run cdev_addr (o :: ops) s) =
  calls_of (exec cdev_addr o s) ++
  calls_of (run cdev_addr ops (state_of (exec cdev_addr o s))).
Proof. rewrite run_cons. reflexivity. Qed.

(** Command calls have no bearing on the rest: dropping them from a sequence
    changes neither the final object nor the outcome of any other call. *)
Theorem commands_can_be_dropped (cdev_addr : ptr) (ops : list op) (s : custom_dev_t) :
  let kept := filter (fun o => negb (is_command o)) ops in
  state_of (run cdev_addr kept s) = state_of (run cdev_addr ops s) /\
  result_of (run cdev_addr kept s) =
    filter (fun e => negb (is_command (fst e))) (result_of (run cdev_addr ops s)).
Proof.
  cbv zeta. revert s. induction ops as [|o ops IH]; intros s.
  - split; reflexivity.
  - destruct o as [ino f cur w | ino f | f cmd arg cur]; cbn [filter is_command negb].
    + rewrite !run_cons_state, !run_cons_result. cbn [filter fst is_command negb].
      destruct (IH (state_of (exec cdev_addr (Acquire ino f cur w) s))) as [H1 H2].
      split; [exact H1 | now rewrite H2].
    + rewrite !run_cons_state, !run_cons_result. cbn [filter fst is_command negb].
      destruct (IH (state_of (exec cdev_addr (Release ino f) s))) as [H1 H2].
      split; [exact H1 | now rewrite H2].
    + rewrite run_cons_state, run_cons_result. cbn [filter fst is_command negb].
      apply (IH s).
Qed.

Lemma exec_lock_balance (cdev_addr : ptr) (o : op) (s : custom_dev_t) :
  (lock_count s + locks_taken (calls_of (exec cdev_addr o s)) =
   unlocks (calls_of (exec cdev_addr o s)) + lock_count (state_of (exec cdev_addr o s)))%nat.
Proof.
  unfold locks_taken, unlocks, calls_of, state_of.
  destruct o as [ino f cur w | ino f | f cmd arg cur]; unfold exec.
  - rewrite open_cases. cbv zeta.
    destruct (negb _); [simpl; lia|].
    destruct (negb _); [simpl; lia|].
    unfold lock_count.
    destruct (mutex_is_locked (lock s)) eqn:L; [destruct w|]; simpl; rewrite ?L;
      reflexivity.
  - unfold bind. rewrite release_cases. cbv zeta.
    destruct (negb _); [simpl; lia|].
    destruct (negb _); [simpl; lia|].
    unfold lock_count.
    destruct (mutex_is_locked (lock s)) eqn:L; simpl; rewrite ?L; reflexivity.
  - simpl. lia.
Qed.

(** Over any sequence of calls the kernel trace balances: the lock count
    at the start plus the successful lock calls equals the unlock calls plus
    the lock count at the end.  So the driver never unlocks a free mutex and
    never takes a held one. *)
Theorem lock_calls_balance (cdev_addr : ptr) (ops : list op) (s : custom_dev_t) :
  (lock_count s + locks_taken (calls_of (run cdev_addr ops s)) =
   unlocks (calls_of (run cdev_addr ops s)) + lock_count (state_of (run cdev_addr ops s)))%nat.
Proof.
  revert s. induction ops as [|o ops IH]; intros s.
  - change (run cdev_addr [] s) with (@nil (op * outcome), s, @nil kcall).
    unfold locks_taken, unlocks, calls_of, state_of. simpl. lia.
  - rewrite run_cons_calls, run_cons_state.
    pose proof (exec_lock_balance cdev_addr o s) as H1.
    pose proof (IH (state_of (exec cdev_addr o s))) as H2.
    unfold locks_taken, unlocks in *.
    rewrite !filter_app, !List.length_app. lia.
Qed.

(** No call into the driver changes what [custom_init] registered: the
    major number, the device number, the class and device handles and the
    cdev stay as they are over any sequence of calls, and a registered object
    stays registered. *)
Theorem registration_is_immutable (cdev_addr : ptr) (ops : list op) (s : custom_dev_t) :
  let s' := state_of (run cdev_addr ops s) in
  major s' = major s /\ dev s' = dev s /\ class_ptr s' = class_ptr s /\
  device_ptr s' = device_ptr s /\ cdev s' = cdev s /\
  registered s' = registered s /\
  forall ino : inode, identity_ok cdev_addr s' ino = identity_ok cdev_addr s ino.
Proof.
  cbv zeta. pose proof (run_same_registration cdev_addr ops s) as Hsame.
  pose proof (registered_same_registration _ _ Hsame) as Hreg.
  pose proof (fun ino => identity_ok_same_registration cdev_addr _ _ ino Hsame) as Hid.
  destruct Hsame as (H1 & H2 & H3 & H4 & H5). repeat split; assumption.
Qed.

(** ** What a failed [custom_init] leaves behind *)

(** [cleanup] resets no field.  When [custom_init] fails after the region
    was allocated, the object still carries the device number and the major
    number of the region it has just given back. *)
Theorem failed_init_keeps_device_number (MAJOR : Z -> Z) (p : platform) :
  alloc_dev p <> 0 ->
  alloc_ret p = 0 ->
  result_of (custom_init MAJOR p custom_dev0) <> 0 ->
  let s := state_of (custom_init MAJOR p custom_dev0) in
  dev s = alloc_dev p /\
  major s = to_uint (MAJOR (alloc_dev p)) /\
  In (K_unregister_chrdev_region (alloc_dev p) 1)
     (calls_of (custom_init MAJOR p custom_dev0)).
Proof.
  intros Hdev Hal. rewrite (custom_init_cases MAJOR p Hdev). cbv zeta.
  unfold failing_step. rewrite Hal. simpl negb. cbv iota.
  destruct (class_create_ret p =? NULL).
  { intros _. unfold state_of, calls_of. simpl. auto 10. }
  destruct (cdev_add_ret p =? -1).
  { intros _. unfold state_of, calls_of. simpl. auto 12. }
  destruct (device_create_ret p =? NULL).
  { intros _. unfold state_of, calls_of. simpl. auto 14. }
  intros H. now contradiction H.
Qed.

Lemma failed_init_keeps_device_number_witness :
  alloc_dev Ex.answers_class_fails <> 0 /\
  dev (state_of (custom_init Ex.MAJOR Ex.answers_class_fails custom_dev0)) =
    alloc_dev Ex.answers_class_fails.
Proof.
  assert (Hd : alloc_dev Ex.answers_class_fails <> 0) by (vm_compute; lia).
  assert (Hr : result_of (custom_init Ex.MAJOR Ex.answers_class_fails custom_dev0) <> 0)
    by (vm_compute; lia).
  split; [exact Hd|].
  apply (failed_init_keeps_device_number Ex.MAJOR Ex.answers_class_fails Hd eq_refl Hr).
Defined.
